(** * ApnaMechanic backend: the chat endpoint

    A shallow embedding of the chat routes of the Express server
    (the Gemini server with its keyword gate, and the older OpenAI
    server), with the properties of the keyword classifiers, of the
    routing of [POST /api/chat] and of [GET /api/chat/history].

    Strings are sequences of Latin-1 code units (the 256 values of
    [ascii]); on that range [String.prototype.toLowerCase] and
    [String.prototype.trim] act one code unit at a time, as written
    below. *)

From Stdlib Require Import String Ascii List Bool ZArith NArith Lia.
From Stdlib Require Import Decimal DecimalString.
From Stdlib Require Import Sorted Permutation.
Import ListNotations.

Local Open Scope string_scope.
Local Open Scope Z_scope.

(** ** JavaScript strings *)

Module JsString.

(** Lower-casing of one code unit: A-Z, and the Latin-1 capitals
    U+00C0..U+00DE without the multiplication sign U+00D7, move up by 32;
    every other code unit is its own lower case. *)
Definition lowerChar (c : ascii) : ascii :=
  let n := N_of_ascii c in
  if ((65 <=? n) && (n <=? 90))%N
     || ((192 <=? n) && (n <=? 222) && negb (n =? 215))%N
  then ascii_of_N (n + 32)
  else c.

(** [s.toLowerCase()] *)
Fixpoint toLowerCase (s : string) : string :=
  match s with
  | EmptyString => EmptyString
  | String c t => String (lowerChar c) (toLowerCase t)
  end.

(** [s.startsWith(k)] *)
Fixpoint startsWith (s k : string) : bool :=
  match k, s with
  | EmptyString, _ => true
  | String _ _, EmptyString => false
  | String a k', String b s' => Ascii.eqb a b && startsWith s' k'
  end.

(** [s.includes(k)]: [k] occurs in [s] at some position. *)
Fixpoint includes (s k : string) : bool :=
  startsWith s k ||
  match s with
  | EmptyString => false
  | String _ t => includes t k
  end.

(** White space and line terminators of the language, on Latin-1:
    TAB, LF, VT, FF, CR, SPACE and NBSP. *)
Definition isWhiteSpace (c : ascii) : bool :=
  let n := N_of_ascii c in
  ((9 <=? n) && (n <=? 13) || (n =? 32) || (n =? 160))%N.

Fixpoint trimStart (s : string) : string :=
  match s with
  | EmptyString => EmptyString
  | String c t => if isWhiteSpace c then trimStart t else s
  end.

(** Drops the trailing white space: a code unit stays when it is not
    white space or when something stays after it. *)
Fixpoint trimEnd (s : string) : string :=
  match s with
  | EmptyString => EmptyString
  | String c t =>
      match trimEnd t with
      | EmptyString => if isWhiteSpace c then EmptyString else String c EmptyString
      | r => String c r
      end
  end.

(** [s.trim()] *)
Definition trim (s : string) : string := trimEnd (trimStart s).

(** A string is truthy when it is not empty. *)
Definition nonEmpty (s : string) : bool :=
  match s with EmptyString => false | String _ _ => true end.

(** Two code units are the same letter up to case. *)
Definition sameLetter (a b : ascii) : Prop := lowerChar a = lowerChar b.

(** Two strings are equal up to letter case: same length, and position by
    position the same letter up to case. *)
Inductive eqUpToCase : string -> string -> Prop :=
| eqUpToCase_nil : eqUpToCase EmptyString EmptyString
| eqUpToCase_cons a b s t :
    sameLetter a b -> eqUpToCase s t -> eqUpToCase (String a s) (String b t).

(** Only white space. *)
Fixpoint allWhiteSpace (s : string) : bool :=
  match s with
  | EmptyString => true
  | String c t => isWhiteSpace c && allWhiteSpace t
  end.

End JsString.
Import JsString.

(** ** The keyword classifiers (Gemini server) *)

Definition carKeywords : list string :=
  [ "car"; "engine"; "brake"; "oil"; "service"; "mechanic"; "tire"; "battery";
    "fuel"; "speed"; "accident"; "repair"; "transmission"; "suspension";
    "headlight"; "insurance"; "air filter"; "car wash"; "dashboard" ].

Definition mechanicKeywords : list string :=
  [ "mechanic"; "service"; "repair"; "fix"; "problem"; "issue"; "appointment";
    "garage" ].

(** [isCarRelated(question)] on a string. *)
Definition isCarRelated (question : string) : bool :=
  existsb (fun keyword => includes (toLowerCase question) keyword) carKeywords.

(** [needsMechanic(question)] on a string. *)
Definition needsMechanic (question : string) : bool :=
  existsb (fun keyword => includes (toLowerCase question) keyword) mechanicKeywords.

(** [k] occurs in [m] up to letter case: some stretch of [m] is equal to
    [k] up to case. *)
Definition containsUpToCase (m k : string) : Prop :=
  exists pre mid post, m = pre ++ mid ++ post /\ eqUpToCase mid k.

(** The string starts with a code unit that is not white space. *)
Definition startsWithInk (k : string) : Prop :=
  match k with
  | EmptyString => False
  | String a _ => isWhiteSpace a = false
  end.

(** ** Request bodies

    [express.json()] leaves the parsed JSON object in [req.body]. Numbers
    are the integer literals; [JUndefined] is what reading a missing
    property gives. *)

#[warnings="-register-all"] Inductive JSValue : Type :=
| JUndefined
| JNull
| JBool (b : bool)
| JNumber (n : Z)
| JString (s : string)
| JArray (items : list JSValue)
| JObject (fields : list (string * JSValue)).

Definition Body : Type := list (string * JSValue).

(** [body[name]]: the last binding of [name] (as [JSON.parse] keeps it),
    [undefined] when there is none. *)
Definition getField (body : Body) (name : string) : JSValue :=
  fold_left (fun acc kv => if String.eqb (fst kv) name then snd kv else acc)
            body JUndefined.

(** [ToBoolean]: what [!message] negates. *)
Definition truthy (v : JSValue) : bool :=
  match v with
  | JUndefined | JNull => false
  | JBool b => b
  | JNumber n => negb (n =? 0)
  | JString s => nonEmpty s
  | JArray _ | JObject _ => true
  end.

(** ** The generation service (Gemini server)

    The shape the handler reads out of the resolved value of
    [model.generateContent]; every level may be missing. *)

Record Part := { text : option string }.
Record Content := { parts : option (list Part) }.
Record Candidate := { content : option Content }.
Record GenerateResponse := { candidates : option (list Candidate) }.
Record GenerateResult := { response : option GenerateResponse }.

Notation "x <-? c ;; k" := (match c with Some x => k | None => None end)
  (at level 61, c at next level, right associativity).

(** [result.response?.candidates?.[0]?.content?.parts?.[0]?.text] *)
Definition candidateText (result : GenerateResult) : option string :=
  r <-? response result ;;
  cs <-? candidates r ;;
  c <-? nth_error cs 0 ;;
  ct <-? content c ;;
  ps <-? parts ct ;;
  p <-? nth_error ps 0 ;;
  text p.

Definition fallbackReply : string := "I'm here to help! How can I assist?".

(** [candidateText?.trim() || fallbackReply] *)
Definition replyOf (result : GenerateResult) : string :=
  match candidateText result with
  | Some t => if nonEmpty (trim t) then trim t else fallbackReply
  | None => fallbackReply
  end.

(** ** The transcript store *)

Record TranscriptEntry := {
  userMessage : string;
  botResponse : string;
  timestamp : Z
}.

Definition Store : Type := list TranscriptEntry.

(** What the collaborators do during one request: the generation call
    resolves with a result or throws ([None]); [chatLog.save()] resolves
    or throws; [new Date()] reads the clock (milliseconds). *)
Record World := {
  generateContent : string -> option GenerateResult;
  saveAccepted : TranscriptEntry -> bool;
  now : Z
}.

(** ** POST /api/chat (Gemini server) *)

Inductive Effect : Type :=
| CallGenerate (prompt : string)
| CallSave (entry : TranscriptEntry)
| LogReply (reply : string)
| LogError.

(** The response sent, or [Uncaught]: an exception left the handler and
    nothing was sent. *)
Inductive Outcome : Type :=
| Sent (status : Z) (reply : string)
| Uncaught.

Record Result := {
  outcome : Outcome;
  store : Store;
  effects : list Effect
}.

Definition requiredReply : string := "Message is required.".
Definition rejectReply : string := "I can only assist with car-related questions.".
Definition cannedReply : string :=
  "For expert auto care and servicing, I recommend ApnaMechanic!".
Definition geminiErrorReply : string := "Error connecting to Gemini AI.".

(** [`Reply in a short, friendly sentence: ${message}`] *)
Definition promptTemplate (message : string) : string :=
  "Reply in a short, friendly sentence: " ++ message.

(** The [try] block: the generation call, the reply, the save, and the
    [catch] that answers 500 for whatever was thrown inside. *)
Definition generateAndSave (w : World) (db : Store) (message : string) : Result :=
  let prompt := promptTemplate message in
  match generateContent w prompt with
  | None =>
      {| outcome := Sent 500 geminiErrorReply; store := db;
         effects := [CallGenerate prompt; LogError] |}
  | Some result =>
      let reply := replyOf result in
      let chatLog :=
        {| userMessage := message; botResponse := reply; timestamp := now w |} in
      if saveAccepted w chatLog
      then {| outcome := Sent 200 reply; store := (db ++ [chatLog])%list;
              effects := [CallGenerate prompt; CallSave chatLog; LogReply reply] |}
      else {| outcome := Sent 500 geminiErrorReply; store := db;
              effects := [CallGenerate prompt; CallSave chatLog; LogError] |}
  end.

(** The handler. A truthy message that is not a string has no
    [toLowerCase]: the call in [isCarRelated] throws a TypeError before the
    [try] block. *)
Definition chatHandler (w : World) (db : Store) (body : Body) : Result :=
  let message := getField body "message" in
  if negb (truthy message)
  then {| outcome := Sent 400 requiredReply; store := db; effects := [] |}
  else
    match message with
    | JString m =>
        if negb (isCarRelated m)
        then {| outcome := Sent 200 rejectReply; store := db; effects := [] |}
        else if needsMechanic m
        then {| outcome := Sent 200 cannedReply; store := db; effects := [] |}
        else generateAndSave w db m
    | _ => {| outcome := Uncaught; store := db; effects := [] |}
    end.

(** The routing decision of the specification, in its words: reject when
    not domain-relevant, else the canned reply on service intent, else
    delegate the wrapped message. *)
Inductive RouteDecision : Type :=
| Reject
| Canned (responseText : string)
| Delegate (promptText : string).

Definition route (text : string) : RouteDecision :=
  if negb (isCarRelated text) then Reject
  else if needsMechanic text then Canned cannedReply
  else Delegate (promptTemplate text).

(** Observations on a result. *)
Definition isSave (e : Effect) : bool :=
  match e with CallSave _ => true | _ => false end.
Definition isGenerate (e : Effect) : bool :=
  match e with CallGenerate _ => true | _ => false end.

Definition storeWrites (r : Result) : nat := length (filter isSave (effects r)).
Definition generationCalls (r : Result) : nat := length (filter isGenerate (effects r)).

(** The entries the request added to the store. *)
Definition persisted (db : Store) (r : Result) : list TranscriptEntry :=
  skipn (length db) (store r).

(** The entry the handler builds from a generation result. *)
Definition entryOf (w : World) (message : string) (result : GenerateResult)
  : TranscriptEntry :=
  {| userMessage := message; botResponse := replyOf result; timestamp := now w |}.

(** The runs of the handler, one constructor per path through it. *)
Inductive ChatRun (w : World) (db : Store) (body : Body) : Result -> Prop :=
| RunInvalid :
    truthy (getField body "message") = false ->
    ChatRun w db body
      {| outcome := Sent 400 requiredReply; store := db; effects := [] |}
| RunNotString :
    truthy (getField body "message") = true ->
    (forall m, getField body "message" <> JString m) ->
    ChatRun w db body {| outcome := Uncaught; store := db; effects := [] |}
| RunReject m :
    getField body "message" = JString m -> nonEmpty m = true ->
    route m = Reject ->
    ChatRun w db body
      {| outcome := Sent 200 rejectReply; store := db; effects := [] |}
| RunCanned m :
    getField body "message" = JString m -> nonEmpty m = true ->
    route m = Canned cannedReply ->
    ChatRun w db body
      {| outcome := Sent 200 cannedReply; store := db; effects := [] |}
| RunGenerationFails m :
    getField body "message" = JString m -> nonEmpty m = true ->
    route m = Delegate (promptTemplate m) ->
    generateContent w (promptTemplate m) = None ->
    ChatRun w db body
      {| outcome := Sent 500 geminiErrorReply; store := db;
         effects := [CallGenerate (promptTemplate m); LogError] |}
| RunSaved m result :
    getField body "message" = JString m -> nonEmpty m = true ->
    route m = Delegate (promptTemplate m) ->
    generateContent w (promptTemplate m) = Some result ->
    saveAccepted w (entryOf w m result) = true ->
    ChatRun w db body
      {| outcome := Sent 200 (replyOf result);
         store := (db ++ [entryOf w m result])%list;
         effects := [CallGenerate (promptTemplate m);
                     CallSave (entryOf w m result); LogReply (replyOf result)] |}
| RunSaveFails m result :
    getField body "message" = JString m -> nonEmpty m = true ->
    route m = Delegate (promptTemplate m) ->
    generateContent w (promptTemplate m) = Some result ->
    saveAccepted w (entryOf w m result) = false ->
    ChatRun w db body
      {| outcome := Sent 500 geminiErrorReply; store := db;
         effects := [CallGenerate (promptTemplate m);
                     CallSave (entryOf w m result); LogError] |}.

(** The request was delegated and its generation call resolved. *)
Definition delegatedAndGenerated (w : World) (body : Body) : Prop :=
  exists m result,
    getField body "message" = JString m
    /\ route m = Delegate (promptTemplate m)
    /\ generateContent w (promptTemplate m) = Some result.

(** ... and the store accepted the entry. *)
Definition delegatedGeneratedAndSaved (w : World) (body : Body) : Prop :=
  exists m result,
    getField body "message" = JString m
    /\ route m = Delegate (promptTemplate m)
    /\ generateContent w (promptTemplate m) = Some result
    /\ saveAccepted w (entryOf w m result) = true.

(** ** GET /api/chat/history *)

Record HistoryItem := { user : string; bot : string; time : string }.

Inductive HistoryOutcome : Type :=
| HistorySent (status : Z) (items : list HistoryItem)
| HistoryError (status : Z) (message : string).

Definition historyLimit : nat := 20.

Fixpoint insertDesc (e : TranscriptEntry) (l : list TranscriptEntry) : list TranscriptEntry :=
  match l with
  | [] => [e]
  | x :: t => if timestamp x <? timestamp e then e :: l else x :: insertDesc e t
  end.

(** Modelled from the spec: the store's find-sorted-limited operation
    behind [Chat.find().sort({ timestamp: -1 }).limit(20)]; the Chat model
    and the query engine are not part of the sources. Entries come newest
    first; the query does not fix the order among entries of equal
    timestamp, the model puts the one stored later first. *)
Definition sortByTimestampDesc (db : Store) : list TranscriptEntry :=
  fold_right insertDesc [] db.

Definition findRecent (db : Store) : list TranscriptEntry :=
  firstn historyLimit (sortByTimestampDesc db).

(** The callback of [chatHistory.map]; [toLocaleString] is the formatting
    of the host's locale. *)
Definition formatChat (toLocaleString : Z -> string) (chat : TranscriptEntry)
  : HistoryItem :=
  {| user := userMessage chat; bot := botResponse chat;
     time := toLocaleString (timestamp chat) |}.

(** The handler; [findOk] tells whether the query resolved. *)
Definition historyHandler (toLocaleString : Z -> string) (findOk : bool)
    (db : Store) : HistoryOutcome :=
  if findOk
  then HistorySent 200 (map (formatChat toLocaleString) (findRecent db))
  else HistoryError 500 "Error fetching chat history.".

(** Newest first: no entry is older than one that comes after it. *)
Definition newestFirst (l : list TranscriptEntry) : Prop :=
  StronglySorted (fun x y => timestamp x >= timestamp y) l.

(** Strictly newest first: every entry is newer than all that come after. *)
Definition strictlyNewestFirst (l : list TranscriptEntry) : Prop :=
  StronglySorted (fun x y => timestamp x > timestamp y) l.

(** ** POST /api/chat (OpenAI server)

    No keyword gate: every truthy message goes, as it is, to the
    completion service; [post] is the request together with the reading
    of [response.data.choices[0].message.content], [None] when either
    throws. *)
Module OpenAI.

Inductive Effect : Type :=
| CallPost (content : JSValue)
| LogReply (reply : string)
| LogError.

Definition errorReply : string := "Error connecting to OpenAI.".

Definition chatHandler (post : JSValue -> option string) (body : Body)
  : Outcome * list Effect :=
  let message := getField body "message" in
  if negb (truthy message)
  then (Sent 400 requiredReply, [])
  else
    match post message with
    | Some reply => (Sent 200 reply, [CallPost message; LogReply reply])
    | None => (Sent 500 errorReply, [CallPost message; LogError])
    end.

End OpenAI.

(** ** A sequence of chat requests

    The handler only appends to the store, so the requests of a server
    run are taken in the order of their store writes; each comes with the
    behaviour of the collaborators during it. *)
Fixpoint serve (requests : list (World * Body)) (db : Store) : Store :=
  match requests with
  | [] => db
  | (w, body) :: rest => serve rest (store (chatHandler w db body))
  end.

(** What every entry written by the chat handler looks like: the user
    message is one that the router delegates, and the bot response is a
    non-empty string that [trim] leaves as it is. *)
Definition delegatedExchange (e : TranscriptEntry) : Prop :=
  route (userMessage e) = Delegate (promptTemplate (userMessage e))
  /\ botResponse e <> ""
  /\ trim (botResponse e) = botResponse e.

(** ** The contact and booking forms *)

Module Forms.

(** The body sent: [{ reply }] by the validation, [{ success, message }]
    after the save; [FormUncaught] when an exception leaves the handler. *)
Inductive Response : Type :=
| Reply (status : Z) (reply : string)
| Saved (status : Z) (success : bool) (message : string)
| FormUncaught.

Record ContactDoc := { name : JSValue; phone : JSValue; message : JSValue }.

Record BookingDoc := {
  bName : JSValue; bPhone : JSValue; vehicle : JSValue; issue : JSValue;
  datetime : JSValue
}.

Inductive Effect : Type :=
| SaveContact (doc : ContactDoc)
| SaveBooking (doc : BookingDoc)
| LogSaved
| LogError.

(** [Date.parse(v)]: a time value, [NaN], or the TypeError of a value that
    has no primitive form. *)
Inductive Parsed : Type :=
| TimeValue (t : Z)
| NotANumber
| ParseThrows.

(** [POST /api/contact] of the Gemini server; [saveOk] tells whether
    [new Contact(doc)] and [save()] go through. *)
Definition contactHandler (saveOk : ContactDoc -> bool) (body : Body)
  : Response * list Effect :=
  let name := getField body "name" in
  let phone := getField body "phone" in
  let message := getField body "message" in
  if negb (truthy name) || negb (truthy phone) || negb (truthy message)
  then (Reply 400 "All fields are required.", [])
  else
    let newContact := {| name := name; phone := phone; message := message |} in
    if saveOk newContact
    then (Saved 200 true "Contact saved successfully.",
          [SaveContact newContact; LogSaved])
    else (Saved 500 false "Error saving contact.",
          [SaveContact newContact; LogError]).

(** [POST /api/book] of the Gemini server. [Date.parse] is only reached
    when the five fields are truthy. *)
Definition bookHandler (dateParse : JSValue -> Parsed)
    (saveOk : BookingDoc -> bool) (body : Body) : Response * list Effect :=
  let name := getField body "name" in
  let phone := getField body "phone" in
  let vehicle := getField body "vehicle" in
  let issue := getField body "issue" in
  let datetime := getField body "datetime" in
  let invalid := Reply 400 "All fields are required with a valid date." in
  if negb (truthy name) || negb (truthy phone) || negb (truthy vehicle)
     || negb (truthy issue) || negb (truthy datetime)
  then (invalid, [])
  else
    match dateParse datetime with
    | ParseThrows => (FormUncaught, [])
    | NotANumber => (invalid, [])
    | TimeValue _ =>
        let newBooking :=
          {| bName := name; bPhone := phone; vehicle := vehicle;
             issue := issue; datetime := datetime |} in
        if saveOk newBooking
        then (Saved 200 true "Booking confirmed successfully.",
              [SaveBooking newBooking; LogSaved])
        else (Saved 500 false "Error saving booking.",
              [SaveBooking newBooking; LogError])
    end.

(** [POST /api/contact] of the OpenAI server: no validation. *)
Definition contactHandlerV1 (saveOk : ContactDoc -> bool) (body : Body)
  : Response * list Effect :=
  let newContact :=
    {| name := getField body "name"; phone := getField body "phone";
       message := getField body "message" |} in
  if saveOk newContact
  then (Saved 200 true "Contact message received and saved.",
        [SaveContact newContact; LogSaved])
  else (Saved 500 false "Error saving contact message.",
        [SaveContact newContact; LogError]).

(** [POST /api/book] of the OpenAI server: no validation. *)
Definition bookHandlerV1 (saveOk : BookingDoc -> bool) (body : Body)
  : Response * list Effect :=
  let newBooking :=
    {| bName := getField body "name"; bPhone := getField body "phone";
       vehicle := getField body "vehicle"; issue := getField body "issue";
       datetime := getField body "datetime" |} in
  if saveOk newBooking
  then (Saved 200 true "Booking confirmed and saved.",
        [SaveBooking newBooking; LogSaved])
  else (Saved 500 false "Error saving booking.",
        [SaveBooking newBooking; LogError]).

(** The status of a response that was sent. *)
Definition statusOf (r : Response) : option Z :=
  match r with
  | Reply s _ | Saved s _ _ => Some s
  | FormUncaught => None
  end.

Definition saves (effs : list Effect) : list Effect :=
  filter (fun e => match e with SaveContact _ | SaveBooking _ => true | _ => false end)
         effs.

End Forms.

(** ** Scenarios used in the examples *)

(** Two exchanges stored within the same millisecond. *)
Definition sameInstantStore : Store :=
  [ {| userMessage := "Is my car battery dead?";
       botResponse := "Check the terminals first.";
       timestamp := 1700000000000 |};
    {| userMessage := "How often should I change engine oil?";
       botResponse := "About every 10,000 km.";
       timestamp := 1700000000000 |} ].

(** Decimal digits of a number that is not negative. *)
Definition decimal (n : Z) : string :=
  NilZero.string_of_uint (N.to_uint (Z.to_N n)).

Definition twoDigits (n : Z) : string :=
  if n <? 10 then "0" ++ decimal n else decimal n.

(** The civil date (year, month, day) of a day number counted from
    1970-01-01, in the proleptic Gregorian calendar. *)
Definition civilFromDays (days : Z) : Z * Z * Z :=
  let z := days + 719468 in
  let era := z / 146097 in
  let doe := z - era * 146097 in
  let yoe := (doe - doe / 1460 + doe / 36524 - doe / 146096) / 365 in
  let doy := doe - (365 * yoe + yoe / 4 - yoe / 100) in
  let mp := (5 * doy + 2) / 153 in
  let d := doy - (153 * mp + 2) / 5 + 1 in
  let m := if mp <? 10 then mp + 3 else mp - 9 in
  let y := yoe + era * 400 + (if m <=? 2 then 1 else 0) in
  (y, m, d).

(** [new Date(t).toLocaleString()] on a host with the en-US locale and
    the UTC time zone, a plain space before AM and PM: month/day/year,
    then the time on the 12-hour clock. Outside the range of time values
    the date is invalid. *)
Definition sampleLocale (t : Z) : string :=
  if (t <? -8640000000000000) || (8640000000000000 <? t) then "Invalid Date"
  else
    let secs := t / 1000 in
    let '(y, m, d) := civilFromDays (secs / 86400) in
    let sod := secs mod 86400 in
    let h := (sod / 3600) mod 12 in
    decimal m ++ "/" ++ decimal d ++ "/" ++ decimal (if y <=? 0 then 1 - y else y)
    ++ ", " ++ decimal (if h =? 0 then 12 else h)
    ++ ":" ++ twoDigits ((sod / 60) mod 60)
    ++ ":" ++ twoDigits (sod mod 60)
    ++ (if sod <? 43200 then " AM" else " PM").

Definition bodyOf (v : JSValue) : Body := [("message", v)].

Definition resultWithText (t : string) : GenerateResult :=
  {| response := Some {| candidates := Some
       [ {| content := Some {| parts := Some [ {| text := Some t |} ] |} |} ] |} |}.

(** A well-formed response without any candidate. *)
Definition resultNoCandidates : GenerateResult :=
  {| response := Some {| candidates := Some [] |} |}.

Definition worldOk : World :=
  {| generateContent := fun _ => Some (resultWithText " Check the terminals first. ");
     saveAccepted := fun _ => true;
     now := 1700000000000 |}.

Definition worldSaveFails : World :=
  {| generateContent := fun _ => Some (resultWithText " Check the terminals first. ");
     saveAccepted := fun _ => false;
     now := 1700000000000 |}.

Definition worldGenerationFails : World :=
  {| generateContent := fun _ => None;
     saveAccepted := fun _ => true;
     now := 1700000000000 |}.

Definition worldNoText : World :=
  {| generateContent := fun _ => Some resultNoCandidates;
     saveAccepted := fun _ => true;
     now := 1700000000000 |}.

Definition worldNoTextSaveFails : World :=
  {| generateContent := fun _ => Some resultNoCandidates;
     saveAccepted := fun _ => false;
     now := 1700000000000 |}.

(** * Properties *)

(** ** Strings *)

Section StringFacts.

Lemma startsWith_app (k t : string) : startsWith (k ++ t) k = true.
Proof.
  induction k as [|a k IH]; simpl.
  - destruct t; reflexivity.
  - now rewrite Ascii.eqb_refl.
Qed.

Lemma startsWith_inv (s k : string) :
  startsWith s k = true -> exists t, s = k ++ t.
Proof.
  revert s; induction k as [|a k IH]; intros s H.
  - now exists s.
  - destruct s as [|b s]; simpl in H; [discriminate|].
    apply andb_true_iff in H as [Hab Hk].
    apply Ascii.eqb_eq in Hab; subst b.
    destruct (IH _ Hk) as [t ->]. now exists t.
Qed.

Lemma includes_unfold (s k : string) :
  includes s k =
  startsWith s k ||
  match s with EmptyString => false | String _ t => includes t k end.
Proof. destruct s; reflexivity. Qed.

Lemma includes_intro (pre k post : string) :
  includes (pre ++ k ++ post) k = true.
Proof.
  induction pre as [|c pre IH]; simpl.
  - rewrite includes_unfold, startsWith_app. reflexivity.
  - rewrite IH. apply orb_true_r.
Qed.

Lemma includes_inv (s k : string) :
  includes s k = true -> exists pre post, s = pre ++ k ++ post.
Proof.
  induction s as [|c s IH]; intros H; rewrite includes_unfold in H.
  - rewrite orb_false_r in H. apply startsWith_inv in H as [t ->].
    now exists "", t.
  - apply orb_true_iff in H as [H|H].
    + apply startsWith_inv in H as [t ->]. now exists "", t.
    + destruct (IH H) as (pre & post & ->). now exists (String c pre), post.
Qed.

(** [includes] is substring occurrence. *)
Lemma includes_spec (s k : string) :
  includes s k = true <-> exists pre post, s = pre ++ k ++ post.
Proof.
  split; [apply includes_inv|].
  intros (pre & post & ->). apply includes_intro.
Qed.

Lemma toLowerCase_app (a b : string) :
  toLowerCase (a ++ b) = toLowerCase a ++ toLowerCase b.
Proof. induction a as [|c a IH]; simpl; [reflexivity | now rewrite IH]. Qed.

Lemma toLowerCase_split (m a b : string) :
  toLowerCase m = a ++ b ->
  exists a' b', m = a' ++ b' /\ toLowerCase a' = a /\ toLowerCase b' = b.
Proof.
  revert m; induction a as [|c a IH]; intros m H.
  - exists "", m. auto.
  - destruct m as [|d m]; simpl in H; [discriminate|].
    injection H as Hc Hm.
    destruct (IH _ Hm) as (a' & b' & -> & Ha & Hb).
    exists (String d a'), b'. simpl. now rewrite Hc, Ha.
Qed.

Lemma eqUpToCase_lower (s t : string) :
  eqUpToCase s t <-> toLowerCase s = toLowerCase t.
Proof.
  split.
  - induction 1 as [|a b s t Hab _ IH]; simpl; [reflexivity|].
    unfold sameLetter in Hab. now rewrite Hab, IH.
  - revert t; induction s as [|a s IH]; intros [|b t] H; simpl in H;
      try discriminate.
    + constructor.
    + injection H as Hab Hst. constructor; [exact Hab | now apply IH].
Qed.

Lemma eqUpToCase_length (s t : string) :
  eqUpToCase s t -> String.length s = String.length t.
Proof. induction 1; simpl; congruence. Qed.

Lemma lowerChar_idem (c : ascii) : lowerChar (lowerChar c) = lowerChar c.
Proof.
  destruct c as [[] [] [] [] [] [] [] []]; reflexivity.
Qed.

Lemma toLowerCase_idem (s : string) : toLowerCase (toLowerCase s) = toLowerCase s.
Proof.
  induction s as [|c s IH]; simpl; [reflexivity|].
  now rewrite lowerChar_idem, IH.
Qed.

(** Case-insensitive occurrence is occurrence of the lower-cased keyword
    in the lower-cased message. *)
Lemma includes_lower_spec (m k : string) :
  includes (toLowerCase m) (toLowerCase k) = true <-> containsUpToCase m k.
Proof.
  rewrite includes_spec. split.
  - intros (pre & post & H).
    apply toLowerCase_split in H as (pre' & r & -> & _ & H).
    apply toLowerCase_split in H as (mid & post' & -> & Hmid & _).
    exists pre', mid, post'. split; [reflexivity|].
    now apply eqUpToCase_lower.
  - intros (pre & mid & post & -> & H).
    apply eqUpToCase_lower in H.
    exists (toLowerCase pre), (toLowerCase post).
    now rewrite !toLowerCase_app, H.
Qed.

End StringFacts.

(** ** The classifiers *)

Section Classifiers.

Lemma existsb_false_iff {A} (f : A -> bool) (l : list A) :
  existsb f l = false <-> forall x, In x l -> f x = false.
Proof.
  induction l as [|a l IH]; simpl.
  - split; [intros _ x [] | reflexivity].
  - rewrite orb_false_iff, IH. split.
    + intros [Ha Hl] x [<-|Hx]; auto.
    + intros H; split; [apply H; now left | intros x Hx; apply H; now right].
Qed.

Lemma carKeywords_lower : Forall (fun k => toLowerCase k = k) carKeywords.
Proof. repeat constructor. Qed.

Lemma mechanicKeywords_lower : Forall (fun k => toLowerCase k = k) mechanicKeywords.
Proof. repeat constructor. Qed.

Lemma isCarRelated_true (m : string) :
  isCarRelated m = true <->
  exists k, In k carKeywords /\ includes (toLowerCase m) k = true.
Proof. unfold isCarRelated. apply existsb_exists. Qed.

Lemma isCarRelated_false (m : string) :
  isCarRelated m = false <->
  forall k, In k carKeywords -> includes (toLowerCase m) k = false.
Proof. unfold isCarRelated. apply existsb_false_iff. Qed.

Lemma needsMechanic_true (m : string) :
  needsMechanic m = true <->
  exists k, In k mechanicKeywords /\ includes (toLowerCase m) k = true.
Proof. unfold needsMechanic. apply existsb_exists. Qed.


(** The classifiers only look at the lower-cased question. *)
Lemma isCarRelated_lower (s t : string) :
  toLowerCase s = toLowerCase t -> isCarRelated s = isCarRelated t.
Proof. unfold isCarRelated. now intros ->. Qed.

Lemma needsMechanic_lower (s t : string) :
  toLowerCase s = toLowerCase t -> needsMechanic s = needsMechanic t.
Proof. unfold needsMechanic. now intros ->. Qed.

(** Domain relevance as occurrence up to case of a domain keyword. *)
Lemma isCarRelated_contains (m : string) :
  isCarRelated m = true <-> exists k, In k carKeywords /\ containsUpToCase m k.
Proof.
  rewrite isCarRelated_true.
  pose proof carKeywords_lower as L. rewrite Forall_forall in L.
  split; intros (k & Hk & H); exists k; (split; [exact Hk|]);
    [apply includes_lower_spec | apply includes_lower_spec in H];
    now rewrite (L k Hk) in *.
Qed.

Lemma needsMechanic_contains (m : string) :
  needsMechanic m = true <-> exists k, In k mechanicKeywords /\ containsUpToCase m k.
Proof.
  rewrite needsMechanic_true.
  pose proof mechanicKeywords_lower as L. rewrite Forall_forall in L.
  split; intros (k & Hk & H); exists k; (split; [exact Hk|]);
    [apply includes_lower_spec | apply includes_lower_spec in H];
    now rewrite (L k Hk) in *.
Qed.

Lemma isCarRelated_nonEmpty (m : string) : isCarRelated m = true -> nonEmpty m = true.
Proof. destruct m; [discriminate | reflexivity]. Qed.

End Classifiers.

(** C9. The keyword classification does not depend on letter case: two
    strings equal up to letter case get the same answer of [isCarRelated]
    and the same answer of [needsMechanic]; the empty string is not
    domain-relevant. The classifiers are functions of the string alone:
    they read and write no state. *)
Theorem classification_case_insensitive :
  (forall s s' : string,
      eqUpToCase s s' ->
      isCarRelated s = isCarRelated s' /\ needsMechanic s = needsMechanic s')
  /\ isCarRelated "" = false.
Proof.
  split; [|reflexivity].
  intros s s' H. apply eqUpToCase_lower in H.
  split; [now apply isCarRelated_lower | now apply needsMechanic_lower].
Qed.

Lemma classification_case_insensitive_witness :
  eqUpToCase "Brake Repair" "bRAKE rEPAIR"
  /\ isCarRelated "Brake Repair" = isCarRelated "bRAKE rEPAIR"
  /\ needsMechanic "Brake Repair" = needsMechanic "bRAKE rEPAIR".
Proof.
  assert (H : eqUpToCase "Brake Repair" "bRAKE rEPAIR")
    by (repeat constructor).
  split; [exact H | exact (proj1 classification_case_insensitive _ _ H)].
Defined.

(** ** POST /api/chat: routing *)

Section Routing.

Variables (w : World) (db : Store) (body : Body).

(** Past the validation the handler is the conditional chain on the two
    classifiers. *)
Lemma chatHandler_string (m : string) :
  getField body "message" = JString m -> nonEmpty m = true ->
  chatHandler w db body =
  if negb (isCarRelated m)
  then {| outcome := Sent 200 rejectReply; store := db; effects := [] |}
  else if needsMechanic m
  then {| outcome := Sent 200 cannedReply; store := db; effects := [] |}
  else generateAndSave w db m.
Proof.
  intros H N. unfold chatHandler. rewrite H. simpl. now rewrite N.
Qed.

Lemma chatHandler_invalid :
  truthy (getField body "message") = false ->
  chatHandler w db body =
  {| outcome := Sent 400 requiredReply; store := db; effects := [] |}.
Proof. intros H. unfold chatHandler. now rewrite H. Qed.


Lemma nonEmpty_true (m : string) : m <> "" -> nonEmpty m = true.
Proof. destruct m; [congruence | reflexivity]. Qed.

End Routing.




(** ** POST /api/chat: what the routing decision says about the classifiers *)

Section RouteInversion.

Lemma route_reject_inv (m : string) :
  route m = Reject <-> isCarRelated m = false.
Proof.
  unfold route. destruct (isCarRelated m), (needsMechanic m); simpl;
    split; intros H; try discriminate; reflexivity.
Qed.

Lemma route_canned_inv (m r : string) :
  route m = Canned r <->
  isCarRelated m = true /\ needsMechanic m = true /\ r = cannedReply.
Proof.
  unfold route. destruct (isCarRelated m), (needsMechanic m); simpl; split;
    try (intros H; discriminate H);
    try (intros (A & B & C); discriminate).
  - intros H. injection H as <-. auto.
  - intros (_ & _ & ->). reflexivity.
Qed.

Lemma route_delegate_inv (m p : string) :
  route m = Delegate p <->
  isCarRelated m = true /\ needsMechanic m = false /\ p = promptTemplate m.
Proof.
  unfold route. destruct (isCarRelated m), (needsMechanic m); simpl; split;
    try (intros H; discriminate H);
    try (intros (A & B & C); discriminate).
  - intros H. injection H as <-. auto.
  - intros (_ & _ & ->). reflexivity.
Qed.

Lemma persisted_unchanged (db : Store) (r : Result) :
  store r = db -> persisted db r = [].
Proof. unfold persisted. intros ->. apply skipn_all. Qed.

Lemma persisted_appended (db : Store) (r : Result) (e : TranscriptEntry) :
  store r = (db ++ [e])%list -> persisted db r = [e].
Proof.
  unfold persisted. intros ->.
  rewrite skipn_app, skipn_all, Nat.sub_diag. reflexivity.
Qed.

(** On a delegated message the handler is the [try] block. *)
Lemma chatHandler_delegate (w : World) (db : Store) (body : Body) (m p : string) :
  getField body "message" = JString m ->
  route m = Delegate p ->
  chatHandler w db body = generateAndSave w db m.
Proof.
  intros H R. apply route_delegate_inv in R as (C & M & _).
  rewrite (chatHandler_string w db body m H (isCarRelated_nonEmpty m C)).
  now rewrite C, M.
Qed.

End RouteInversion.

(** C10. "mechanic", "service" and "repair" are in both keyword lists, so
    a message in which one of them occurs, in any letter case, gets the
    canned recommendation: the generation service is not called and
    nothing is written to the store. *)
Theorem shared_keywords_route_to_canned
    (w : World) (db : Store) (body : Body) (m : string) :
  getField body "message" = JString m ->
  containsUpToCase m "mechanic" \/ containsUpToCase m "service"
    \/ containsUpToCase m "repair" ->
  let r := chatHandler w db body in
  (In "mechanic" carKeywords /\ In "mechanic" mechanicKeywords)
  /\ (In "service" carKeywords /\ In "service" mechanicKeywords)
  /\ (In "repair" carKeywords /\ In "repair" mechanicKeywords)
  /\ route m = Canned cannedReply
  /\ outcome r = Sent 200 cannedReply
  /\ generationCalls r = 0%nat
  /\ storeWrites r = 0%nat
  /\ store r = db
  /\ persisted db r = [].
Proof.
  intros H K r.
  assert (In1 : In "mechanic" carKeywords /\ In "mechanic" mechanicKeywords)
    by (simpl; tauto).
  assert (In2 : In "service" carKeywords /\ In "service" mechanicKeywords)
    by (simpl; tauto).
  assert (In3 : In "repair" carKeywords /\ In "repair" mechanicKeywords)
    by (simpl; tauto).
  assert (exists k, (In k carKeywords /\ In k mechanicKeywords)
                    /\ containsUpToCase m k) as (k & (Kc & Km) & Hk).
  { destruct K as [K|[K|K]]; eauto. }
  assert (C : isCarRelated m = true) by (apply isCarRelated_contains; eauto).
  assert (M : needsMechanic m = true) by (apply needsMechanic_contains; eauto).
  assert (E : r = {| outcome := Sent 200 cannedReply; store := db; effects := [] |}).
  { subst r. rewrite (chatHandler_string w db body m H (isCarRelated_nonEmpty m C)).
    now rewrite C, M. }
  repeat (split; [assumption|]).
  split; [apply route_canned_inv; auto|].
  rewrite E. repeat split. apply persisted_unchanged. reflexivity.
Qed.

Lemma shared_keywords_route_to_canned_witness :
  containsUpToCase "Brake REPAIR soon" "repair"
  /\ outcome (chatHandler worldOk [] (bodyOf (JString "Brake REPAIR soon")))
     = Sent 200 cannedReply.
Proof.
  assert (K : containsUpToCase "Brake REPAIR soon" "repair").
  { exists "Brake ", "REPAIR", " soon". split; [reflexivity | repeat constructor]. }
  split; [exact K|].
  destruct (shared_keywords_route_to_canned worldOk []
              (bodyOf (JString "Brake REPAIR soon")) "Brake REPAIR soon"
              eq_refl (or_intror (or_intror K)))
    as (_ & _ & _ & _ & O & _).
  exact O.
Defined.

(** C6. On a delegated message whose generation call fails the response
    is status 500 with the reply "Error connecting to Gemini AI."; the
    store is left as it was and no write to it is attempted. *)
Theorem generation_failure_gives_500
    (w : World) (db : Store) (body : Body) (m : string) :
  getField body "message" = JString m ->
  route m = Delegate (promptTemplate m) ->
  generateContent w (promptTemplate m) = None ->
  let r := chatHandler w db body in
  outcome r = Sent 500 "Error connecting to Gemini AI."
  /\ store r = db
  /\ persisted db r = []
  /\ storeWrites r = 0%nat
  /\ generationCalls r = 1%nat.
Proof.
  intros H R G r. subst r.
  rewrite (chatHandler_delegate w db body m _ H R).
  unfold generateAndSave. rewrite G.
  repeat split. apply persisted_unchanged. reflexivity.
Qed.

Lemma generation_failure_gives_500_witness :
  route "My car battery is dead" = Delegate (promptTemplate "My car battery is dead")
  /\ generateContent worldGenerationFails (promptTemplate "My car battery is dead") = None
  /\ outcome (chatHandler worldGenerationFails []
               (bodyOf (JString "My car battery is dead")))
     = Sent 500 "Error connecting to Gemini AI.".
Proof.
  split; [reflexivity|]. split; [reflexivity|].
  destruct (generation_failure_gives_500 worldGenerationFails []
              (bodyOf (JString "My car battery is dead")) "My car battery is dead"
              eq_refl eq_refl eq_refl)
    as (O & _).
  exact O.
Defined.

(** ** POST /api/chat: the runs of the handler *)

Section Runs.

Variables (w : World) (db : Store) (body : Body).

Lemma generateAndSave_run (m : string) :
  getField body "message" = JString m -> nonEmpty m = true ->
  route m = Delegate (promptTemplate m) ->
  ChatRun w db body (generateAndSave w db m).
Proof.
  intros H N R. unfold generateAndSave.
  destruct (generateContent w (promptTemplate m)) as [result|] eqn:G.
  - fold (entryOf w m result).
    destruct (saveAccepted w (entryOf w m result)) eqn:S.
    + now apply RunSaved.
    + now apply RunSaveFails.
  - now apply RunGenerationFails.
Qed.

(** Every request takes one of the seven paths. *)
Lemma chatHandler_run : ChatRun w db body (chatHandler w db body).
Proof.
  destruct (truthy (getField body "message")) eqn:T.
  - destruct (getField body "message") as [ | |b|n|m|items|fields] eqn:H;
      simpl in T; try discriminate T.
    1, 2, 4, 5:
      (unfold chatHandler; rewrite H; simpl; rewrite ?T; simpl;
       apply RunNotString; [rewrite H; exact T | rewrite H; discriminate]).
    rewrite (chatHandler_string w db body m H T).
    destruct (isCarRelated m) eqn:C; simpl.
    + destruct (needsMechanic m) eqn:M.
      * apply (RunCanned w db body m H T). apply route_canned_inv; auto.
      * apply generateAndSave_run; auto. apply route_delegate_inv; auto.
    + apply (RunReject w db body m H T). now apply route_reject_inv.
  - rewrite (chatHandler_invalid w db body T). now apply RunInvalid.
Qed.

(** A delegated message is a non-empty string. *)
Lemma delegate_truthy (m p : string) :
  getField body "message" = JString m -> route m = Delegate p ->
  truthy (getField body "message") = true.
Proof.
  intros H R. rewrite H. simpl. apply isCarRelated_nonEmpty.
  now apply route_delegate_inv in R as (C & _).
Qed.

End Runs.

Ltac same_message :=
  repeat match goal with
  | H1 : getField ?b ?f = JString ?m, H2 : getField ?b ?f = JString ?m' |- _ =>
      assert (m' = m) by congruence; subst m'; clear H2
  | H1 : generateContent ?w ?p = Some ?r, H2 : generateContent ?w ?p = Some ?r' |- _ =>
      assert (r' = r) by congruence; subst r'; clear H2
  end.

Ltac no_such_run :=
  match goal with
  | H : truthy (getField ?b _) = false, Hm : getField ?b _ = JString ?m,
    R : route ?m = Delegate _ |- _ =>
      pose proof (delegate_truthy b m _ Hm R); congruence
  | Hm : getField _ _ = JString _, H : _ |- _ => exfalso; exact (H _ Hm)
  | _ => same_message; congruence
  end.

(** ** POST /api/chat: persistence *)

Section Persistence.

Lemma skipn_length_app {A} (l : list A) (e : A) :
  skipn (length l) (l ++ [e]) = [e].
Proof. now rewrite skipn_app, skipn_all, Nat.sub_diag. Qed.

Lemma chatHandler_saved (w : World) (db : Store) (body : Body)
    (m : string) (result : GenerateResult) :
  getField body "message" = JString m ->
  route m = Delegate (promptTemplate m) ->
  generateContent w (promptTemplate m) = Some result ->
  saveAccepted w (entryOf w m result) = true ->
  chatHandler w db body =
  {| outcome := Sent 200 (replyOf result);
     store := (db ++ [entryOf w m result])%list;
     effects := [CallGenerate (promptTemplate m);
                 CallSave (entryOf w m result); LogReply (replyOf result)] |}.
Proof.
  intros H R G S. rewrite (chatHandler_delegate w db body m _ H R).
  unfold generateAndSave. rewrite G. fold (entryOf w m result). now rewrite S.
Qed.

Lemma chatHandler_save_fails (w : World) (db : Store) (body : Body)
    (m : string) (result : GenerateResult) :
  getField body "message" = JString m ->
  route m = Delegate (promptTemplate m) ->
  generateContent w (promptTemplate m) = Some result ->
  saveAccepted w (entryOf w m result) = false ->
  chatHandler w db body =
  {| outcome := Sent 500 geminiErrorReply;
     store := db;
     effects := [CallGenerate (promptTemplate m);
                 CallSave (entryOf w m result); LogError] |}.
Proof.
  intros H R G S. rewrite (chatHandler_delegate w db body m _ H R).
  unfold generateAndSave. rewrite G. fold (entryOf w m result). now rewrite S.
Qed.

End Persistence.

Ltac run_cases w db body :=
  destruct (chatHandler_run w db body)
    as [T | T NS | m H N R | m H N R | m H N R G
        | m result H N R G S | m result H N R G S];
  unfold persisted, storeWrites, generationCalls; simpl;
  rewrite ?skipn_all, ?skipn_length_app.

(** C2, as the handler has it. A write to the store is attempted exactly
    when the message was delegated and the generation call resolved, and
    an entry is persisted exactly when moreover the store accepted the
    write. A rejected or canned message touches neither the generation
    service nor the store. A request makes at most one generation call and
    at most one store write, and adds at most one entry. *)
Theorem transcript_persisted_iff_saved (w : World) (db : Store) (body : Body) :
  let r := chatHandler w db body in
  (storeWrites r = 1%nat <-> delegatedAndGenerated w body)
  /\ (persisted db r <> [] <-> delegatedGeneratedAndSaved w body)
  /\ (forall m, getField body "message" = JString m ->
                route m = Reject \/ route m = Canned cannedReply ->
                persisted db r = [] /\ storeWrites r = 0%nat
                /\ generationCalls r = 0%nat)
  /\ store r = (db ++ persisted db r)%list
  /\ (length (persisted db r) <= 1)%nat
  /\ (storeWrites r <= 1)%nat
  /\ (generationCalls r <= 1)%nat.
Proof.
  intros r. subst r.
  unfold delegatedAndGenerated, delegatedGeneratedAndSaved.
  run_cases w db body;
    (split; [|split; [|split; [|split; [|repeat split; auto]]]]);
    rewrite ?app_nil_r; try reflexivity;
    try (intros m' Hm' [R'|R']; solve [auto | no_such_run]);
    try (split;
         [ intros X; first [discriminate X | exfalso; now apply X | eauto 10]
         | first [ intros (m' & res' & Hm' & R' & G' & S')
                 | intros (m' & res' & Hm' & R' & G') ];
           first [reflexivity | discriminate | no_such_run] ]).
Qed.

(** C2 as stated fails when the store refuses the write: the message
    "My car battery is dead" is delegated, the generation call resolves,
    and yet no entry is persisted. *)
Lemma persisted_iff_generated_counterexample :
  let m := "My car battery is dead" in
  let r := chatHandler worldSaveFails [] (bodyOf (JString m)) in
  route m = Delegate (promptTemplate m)
  /\ generateContent worldSaveFails (promptTemplate m)
     = Some (resultWithText " Check the terminals first. ")
  /\ persisted [] r = []
  /\ store r = []
  /\ ~ (persisted [] r <> [] <->
        route m = Delegate (promptTemplate m)
        /\ generateContent worldSaveFails (promptTemplate m) <> None).
Proof.
  repeat split; try reflexivity.
  intros [_ K]. apply K; [|reflexivity].
  split; [reflexivity | discriminate].
Qed.

(** C3, as the handler has it. [chatLog.save()] is awaited inside the
    [try] block: when the message was delegated, the generation call
    resolved and the write fails, the response is status 500 with the reply
    "Error connecting to Gemini AI."; the generated reply is not sent, the
    failure is logged and the store is left as it was. *)
Theorem save_failure_gives_500
    (w : World) (db : Store) (body : Body) (m : string) (result : GenerateResult) :
  getField body "message" = JString m ->
  route m = Delegate (promptTemplate m) ->
  generateContent w (promptTemplate m) = Some result ->
  saveAccepted w (entryOf w m result) = false ->
  let r := chatHandler w db body in
  outcome r = Sent 500 "Error connecting to Gemini AI."
  /\ outcome r <> Sent 200 (replyOf result)
  /\ store r = db
  /\ effects r = [CallGenerate (promptTemplate m);
                  CallSave (entryOf w m result); LogError].
Proof.
  intros H R G S r. subst r.
  rewrite (chatHandler_save_fails w db body m result H R G S). simpl.
  repeat split. discriminate.
Qed.

Lemma save_failure_gives_500_witness :
  let m := "My car battery is dead" in
  let result := resultWithText " Check the terminals first. " in
  route m = Delegate (promptTemplate m)
  /\ generateContent worldSaveFails (promptTemplate m) = Some result
  /\ saveAccepted worldSaveFails (entryOf worldSaveFails m result) = false
  /\ outcome (chatHandler worldSaveFails [] (bodyOf (JString m)))
     = Sent 500 "Error connecting to Gemini AI.".
Proof.
  split; [reflexivity|]. split; [reflexivity|]. split; [reflexivity|].
  destruct (save_failure_gives_500 worldSaveFails []
              (bodyOf (JString "My car battery is dead"))
              "My car battery is dead"
              (resultWithText " Check the terminals first. ")
              eq_refl eq_refl eq_refl eq_refl)
    as (O & _).
  exact O.
Defined.

(** C3 as stated fails: with a delegated message, a generation call that
    resolved with "Check the terminals first." and a store that refuses the
    write, the response is not status 200 with the generated reply. *)
Lemma save_failure_keeps_reply_counterexample :
  let m := "My car battery is dead" in
  let r := chatHandler worldSaveFails [] (bodyOf (JString m)) in
  route m = Delegate (promptTemplate m)
  /\ generateContent worldSaveFails (promptTemplate m)
     = Some (resultWithText " Check the terminals first. ")
  /\ replyOf (resultWithText " Check the terminals first. ")
     = "Check the terminals first."
  /\ outcome r = Sent 500 "Error connecting to Gemini AI."
  /\ outcome r <> Sent 200 "Check the terminals first.".
Proof.
  repeat split; try reflexivity. discriminate.
Qed.

(** The reply when the response carries no candidate text. *)
Lemma replyOf_no_text (result : GenerateResult) :
  candidateText result = None -> replyOf result = fallbackReply.
Proof. unfold replyOf. now intros ->. Qed.

(** C7, as the handler has it. When the message was delegated and the
    generation call resolved with a response that carries no candidate
    text, the reply is the fallback "I'm here to help! How can I assist?":
    that is the reply of the entry the handler writes, and when the store
    accepts the write it is the reply sent, with status 200, and the
    reply persisted. *)
Theorem missing_candidate_text_gives_fallback
    (w : World) (db : Store) (body : Body) (m : string) (result : GenerateResult) :
  getField body "message" = JString m ->
  route m = Delegate (promptTemplate m) ->
  generateContent w (promptTemplate m) = Some result ->
  candidateText result = None ->
  let r := chatHandler w db body in
  let entry := {| userMessage := m;
                  botResponse := "I'm here to help! How can I assist?";
                  timestamp := now w |} in
  replyOf result = "I'm here to help! How can I assist?"
  /\ In (CallSave entry) (effects r)
  /\ (saveAccepted w entry = true ->
      outcome r = Sent 200 "I'm here to help! How can I assist?"
      /\ store r = (db ++ [entry])%list
      /\ persisted db r = [entry]).
Proof.
  intros H R G C r entry.
  pose proof (replyOf_no_text result C) as F.
  assert (E : entryOf w m result = entry)
    by (unfold entryOf, entry; now rewrite F).
  split; [exact F|].
  subst r. destruct (saveAccepted w entry) eqn:S.
  - rewrite <- E in S.
    rewrite (chatHandler_saved w db body m result H R G S). simpl.
    rewrite E, F. split; [auto|]. intros _.
    repeat split. unfold persisted. simpl. apply skipn_length_app.
  - rewrite <- E in S.
    rewrite (chatHandler_save_fails w db body m result H R G S). simpl.
    rewrite E. split; [auto|]. discriminate.
Qed.

Lemma missing_candidate_text_gives_fallback_witness :
  let m := "My car battery is dead" in
  route m = Delegate (promptTemplate m)
  /\ generateContent worldNoText (promptTemplate m) = Some resultNoCandidates
  /\ candidateText resultNoCandidates = None
  /\ outcome (chatHandler worldNoText [] (bodyOf (JString m)))
     = Sent 200 "I'm here to help! How can I assist?".
Proof.
  split; [reflexivity|]. split; [reflexivity|]. split; [reflexivity|].
  destruct (missing_candidate_text_gives_fallback worldNoText []
              (bodyOf (JString "My car battery is dead"))
              "My car battery is dead" resultNoCandidates
              eq_refl eq_refl eq_refl eq_refl)
    as (_ & _ & K).
  exact (proj1 (K eq_refl)).
Defined.

(** C7 as stated fails when the store refuses the write: the response
    carries no candidate, and the request ends with status 500 and the
    error reply instead of the fallback. *)
Lemma fallback_reply_counterexample :
  let m := "My car battery is dead" in
  let r := chatHandler worldNoTextSaveFails [] (bodyOf (JString m)) in
  route m = Delegate (promptTemplate m)
  /\ generateContent worldNoTextSaveFails (promptTemplate m)
     = Some resultNoCandidates
  /\ candidateText resultNoCandidates = None
  /\ outcome r = Sent 500 "Error connecting to Gemini AI."
  /\ outcome r <> Sent 200 "I'm here to help! How can I assist?"
  /\ persisted [] r = [].
Proof.
  repeat split; try reflexivity. discriminate.
Qed.

(** ** POST /api/chat: validation *)

Section Validation.

Lemma isWhiteSpace_lowerChar (c : ascii) :
  isWhiteSpace (lowerChar c) = isWhiteSpace c.
Proof. destruct c as [[] [] [] [] [] [] [] []]; reflexivity. Qed.

Lemma allWhiteSpace_toLowerCase (s : string) :
  allWhiteSpace (toLowerCase s) = allWhiteSpace s.
Proof.
  induction s as [|c s IH]; simpl; [reflexivity|].
  now rewrite isWhiteSpace_lowerChar, IH.
Qed.

Lemma allWhiteSpace_middle (pre post : string) (a : ascii) :
  allWhiteSpace (pre ++ String a post) = true -> isWhiteSpace a = true.
Proof.
  induction pre as [|c pre IH]; simpl; intros H;
    apply andb_true_iff in H as [H1 H2]; auto.
Qed.

Lemma carKeywords_ink : Forall startsWithInk carKeywords.
Proof. repeat constructor. Qed.

Lemma includes_blank (s k : string) :
  allWhiteSpace s = true -> startsWithInk k -> includes s k = false.
Proof.
  intros W K. destruct (includes s k) eqn:E; [|reflexivity].
  apply includes_inv in E as (pre & post & ->).
  destruct k as [|a k]; [destruct K|]. simpl in *.
  apply allWhiteSpace_middle in W. congruence.
Qed.

(** A message of white space only is not domain-relevant. *)
Lemma isCarRelated_blank (m : string) :
  allWhiteSpace m = true -> isCarRelated m = false.
Proof.
  intros W. apply isCarRelated_false. intros k Hk.
  apply includes_blank.
  - now rewrite allWhiteSpace_toLowerCase.
  - pose proof carKeywords_ink as F. rewrite Forall_forall in F. auto.
Qed.

(** Reading a property that the body does not bind gives [undefined]. *)
Lemma getField_absent (body : Body) (name : string) :
  (forall kv, In kv body -> fst kv <> name) -> getField body name = JUndefined.
Proof.
  unfold getField. generalize JUndefined as acc.
  induction body as [|kv body IH]; intros acc H; simpl; [reflexivity|].
  destruct (String.eqb (fst kv) name) eqn:E.
  - apply String.eqb_eq in E. exfalso. apply (H kv); [now left | exact E].
  - apply IH. intros kv' Hkv'. apply H. now right.
Qed.

(** The guard [!message] answers 400 for a missing message and for the
    falsy values: [null], [false], [0] and the empty string. *)
Lemma chatHandler_falsy (w : World) (db : Store) (body : Body) :
  getField body "message" = JUndefined \/ getField body "message" = JNull
  \/ getField body "message" = JBool false
  \/ getField body "message" = JNumber 0
  \/ getField body "message" = JString "" ->
  chatHandler w db body =
  {| outcome := Sent 400 requiredReply; store := db; effects := [] |}.
Proof.
  intros H. apply chatHandler_invalid.
  destruct H as [H|[H|[H|[H|H]]]]; now rewrite H.
Qed.

(** A truthy message that is not a string passes the guard and stops the
    handler with the TypeError of [question.toLowerCase]. *)
Lemma chatHandler_truthy_non_string (w : World) (db : Store) (body : Body) :
  truthy (getField body "message") = true ->
  (forall m, getField body "message" <> JString m) ->
  chatHandler w db body =
  {| outcome := Uncaught; store := db; effects := [] |}.
Proof.
  intros T NS. unfold chatHandler. rewrite T. simpl.
  destruct (getField body "message") as [ | |b|n|m|items|fields];
    try reflexivity.
  exfalso. now apply (NS m).
Qed.

(** The OpenAI server answers the same 400 for a falsy message, and sends
    every truthy one, string or not, to the completion service. *)
Lemma openai_chatHandler_falsy (post : JSValue -> option string) (body : Body) :
  truthy (getField body "message") = false ->
  OpenAI.chatHandler post body = (Sent 400 requiredReply, []).
Proof. intros T. unfold OpenAI.chatHandler. now rewrite T. Qed.

Lemma openai_chatHandler_truthy (post : JSValue -> option string) (body : Body) :
  truthy (getField body "message") = true ->
  hd_error (snd (OpenAI.chatHandler post body))
  = Some (OpenAI.CallPost (getField body "message")).
Proof.
  intros T. unfold OpenAI.chatHandler. rewrite T. simpl.
  now destruct (post (getField body "message")).
Qed.

End Validation.

(** C4, as the handler has it. The empty message is answered with status
    400 and "Message is required."; a non-empty message made of white
    space only passes the guard, is not domain-relevant, and is answered
    with status 200 and the car-only reply. In both cases the generation
    service is not called and nothing is written to the store. *)
Theorem blank_message_handling
    (w : World) (db : Store) (body : Body) (m : string) :
  getField body "message" = JString m ->
  allWhiteSpace m = true ->
  let r := chatHandler w db body in
  (m = "" -> outcome r = Sent 400 "Message is required.")
  /\ (m <> "" ->
      outcome r = Sent 200 "I can only assist with car-related questions.")
  /\ store r = db
  /\ persisted db r = []
  /\ storeWrites r = 0%nat
  /\ generationCalls r = 0%nat.
Proof.
  intros H W r. subst r.
  destruct m as [|c m].
  - rewrite (chatHandler_falsy w db body) by tauto.
    unfold persisted. simpl. rewrite skipn_all.
    repeat split. congruence.
  - rewrite (chatHandler_string w db body _ H eq_refl).
    rewrite (isCarRelated_blank _ W).
    unfold persisted. simpl. rewrite skipn_all.
    repeat split. discriminate.
Qed.

Lemma blank_message_handling_witness :
  allWhiteSpace "" = true
  /\ outcome (chatHandler worldOk [] (bodyOf (JString "")))
     = Sent 400 "Message is required.".
Proof.
  split; [reflexivity|].
  destruct (blank_message_handling worldOk [] (bodyOf (JString "")) ""
              eq_refl eq_refl)
    as (K & _).
  exact (K eq_refl).
Defined.

(** C4 as stated fails on a message of three spaces: it is answered with
    status 200 and the car-only reply, not with status 400. *)
Lemma blank_message_counterexample :
  let r := chatHandler worldOk [] (bodyOf (JString "   ")) in
  allWhiteSpace "   " = true
  /\ outcome r = Sent 200 "I can only assist with car-related questions."
  /\ outcome r <> Sent 400 "Message is required.".
Proof.
  repeat split; try reflexivity. discriminate.
Qed.

(** C5, at the failing input: the body [{ "message": 5 }]. The number is
    truthy, so the guard lets it through; [isCarRelated(5)] throws, the
    exception leaves the handler and no 400 is sent. *)
Theorem number_message_not_rejected (w : World) (db : Store) :
  let r := chatHandler w db (bodyOf (JNumber 5)) in
  truthy (JNumber 5) = true
  /\ outcome r = Uncaught
  /\ outcome r <> Sent 400 "Message is required.".
Proof.
  simpl. repeat split. discriminate.
Qed.

(** ** GET /api/chat/history *)

Section History.

Lemma insertDesc_perm (e : TranscriptEntry) (l : list TranscriptEntry) :
  Permutation (insertDesc e l) (e :: l).
Proof.
  induction l as [|x t IH]; simpl; [reflexivity|].
  destruct (timestamp x <? timestamp e); [reflexivity|].
  rewrite IH. apply perm_swap.
Qed.

Lemma sortByTimestampDesc_perm (db : Store) :
  Permutation (sortByTimestampDesc db) db.
Proof.
  induction db as [|e db IH]; simpl; [reflexivity|].
  rewrite insertDesc_perm. now constructor.
Qed.

Lemma insertDesc_newestFirst (e : TranscriptEntry) (l : list TranscriptEntry) :
  newestFirst l -> newestFirst (insertDesc e l).
Proof.
  unfold newestFirst. induction 1 as [|x t St IH Hx]; simpl.
  - repeat constructor.
  - destruct (timestamp x <? timestamp e) eqn:E.
    + apply Z.ltb_lt in E. constructor; [now constructor|].
      constructor; [lia|].
      rewrite Forall_forall in *. intros y Hy. specialize (Hx y Hy). lia.
    + apply Z.ltb_ge in E. constructor; [exact IH|].
      rewrite Forall_forall in *. intros y Hy.
      apply (Permutation_in _ (insertDesc_perm e t)) in Hy.
      destruct Hy as [<-|Hy]; [lia | now apply Hx].
Qed.

Lemma sortByTimestampDesc_newestFirst (db : Store) :
  newestFirst (sortByTimestampDesc db).
Proof.
  induction db as [|e db IH]; simpl.
  - constructor.
  - now apply insertDesc_newestFirst.
Qed.

Lemma StronglySorted_firstn {A} (R : A -> A -> Prop) (n : nat) (l : list A) :
  StronglySorted R l -> StronglySorted R (firstn n l).
Proof.
  intros S. revert n. induction S as [|x t St IH Hx]; intros [|n]; simpl;
    try constructor.
  - apply IH.
  - rewrite Forall_forall in *. intros y Hy. apply Hx.
    rewrite <- (firstn_skipn n t). apply in_or_app. now left.
Qed.

Lemma StronglySorted_app_order {A} (R : A -> A -> Prop) (l1 l2 : list A) :
  StronglySorted R (l1 ++ l2) ->
  forall x y, In x l1 -> In y l2 -> R x y.
Proof.
  induction l1 as [|a l1 IH]; simpl; intros S x y Hx Hy; [destruct Hx|].
  apply StronglySorted_inv in S as [S F].
  destruct Hx as [<-|Hx].
  - rewrite Forall_forall in F. apply F. apply in_or_app. now right.
  - now apply (IH S).
Qed.

(** Without two entries of the same timestamp, newest first is strict. *)
Lemma newestFirst_strict (l : list TranscriptEntry) :
  newestFirst l -> NoDup (map timestamp l) -> strictlyNewestFirst l.
Proof.
  unfold newestFirst, strictlyNewestFirst.
  induction 1 as [|x t St IH Hx]; simpl; intros N; [constructor|].
  inversion N as [|? ? Nx Nt]; subst.
  constructor; [now apply IH|].
  rewrite Forall_forall in *. intros y Hy.
  assert (timestamp x <> timestamp y).
  { intros E. apply Nx. rewrite E. now apply in_map. }
  specialize (Hx y Hy). lia.
Qed.

End History.

(** C8, as the handler has it. When the query resolves, the response is
    status 200 with the reshaped entries [{ user, bot, time }] of at most
    20 entries of the store: the first 20 of the store in the order newest
    first, so that no returned entry is older than a later one or than an
    entry left out. The order is strict whenever no two entries of the
    store have the same timestamp. *)
Theorem history_recent_newest_first (toLocaleString : Z -> string) (db : Store) :
  let entries := firstn 20 (sortByTimestampDesc db) in
  let older := skipn 20 (sortByTimestampDesc db) in
  historyHandler toLocaleString true db
  = HistorySent 200
      (map (fun chat => {| user := userMessage chat; bot := botResponse chat;
                           time := toLocaleString (timestamp chat) |}) entries)
  /\ (length entries <= 20)%nat
  /\ length entries = Nat.min 20 (length db)
  /\ newestFirst entries
  /\ Permutation (entries ++ older) db
  /\ (forall x y, In x entries -> In y older -> timestamp y <= timestamp x)
  /\ (NoDup (map timestamp db) -> strictlyNewestFirst entries).
Proof.
  intros entries older.
  pose proof (sortByTimestampDesc_newestFirst db) as S.
  pose proof (sortByTimestampDesc_perm db) as P.
  split; [reflexivity|].
  split; [apply firstn_le_length|].
  split. { unfold entries. now rewrite length_firstn, (Permutation_length P). }
  split. { now apply StronglySorted_firstn. }
  split. { unfold entries, older. now rewrite firstn_skipn. }
  split.
  - intros x y Hx Hy.
    assert (timestamp x >= timestamp y); [|lia].
    apply (StronglySorted_app_order
             (fun a b => timestamp a >= timestamp b) entries older); auto.
    unfold entries, older. now rewrite firstn_skipn.
  - intros N. apply StronglySorted_firstn. apply newestFirst_strict; [exact S|].
    apply (Permutation_NoDup (l := map timestamp db)); [|exact N].
    symmetry. now apply Permutation_map.
Qed.

Lemma history_recent_newest_first_witness :
  NoDup (map timestamp [ {| userMessage := "a"; botResponse := "b"; timestamp := 1 |};
                         {| userMessage := "c"; botResponse := "d"; timestamp := 2 |} ])
  /\ strictlyNewestFirst
       (firstn 20 (sortByTimestampDesc
          [ {| userMessage := "a"; botResponse := "b"; timestamp := 1 |};
            {| userMessage := "c"; botResponse := "d"; timestamp := 2 |} ])).
Proof.
  assert (N : NoDup (map timestamp
            [ {| userMessage := "a"; botResponse := "b"; timestamp := 1 |};
              {| userMessage := "c"; botResponse := "d"; timestamp := 2 |} ])).
  { simpl. repeat constructor; simpl; intuition discriminate. }
  split; [exact N|].
  destruct (history_recent_newest_first sampleLocale
              [ {| userMessage := "a"; botResponse := "b"; timestamp := 1 |};
                {| userMessage := "c"; botResponse := "d"; timestamp := 2 |} ])
    as (_ & _ & _ & _ & _ & _ & K).
  exact (K N).
Defined.

(** C8 as stated fails on a store with two entries of the same timestamp:
    both are returned, one after the other, and neither is newer than the
    other. *)
Lemma history_strict_order_counterexample :
  historyHandler sampleLocale true sameInstantStore
  = HistorySent 200
      [ {| user := "How often should I change engine oil?";
           bot := "About every 10,000 km.";
           time := "11/14/2023, 10:13:20 PM" |};
        {| user := "Is my car battery dead?";
           bot := "Check the terminals first.";
           time := "11/14/2023, 10:13:20 PM" |} ]
  /\ map timestamp (findRecent sameInstantStore) = [1700000000000; 1700000000000]
  /\ ~ strictlyNewestFirst (findRecent sameInstantStore).
Proof.
  split; [reflexivity|]. split; [reflexivity|].
  intros S. apply StronglySorted_inv in S as [_ F].
  apply Forall_inv in F. simpl in F. lia.
Qed.

(** ** Worked requests *)

Example battery_is_delegated_and_saved :
  chatHandler worldOk [] (bodyOf (JString "My car battery is dead"))
  = {| outcome := Sent 200 "Check the terminals first.";
       store := [ {| userMessage := "My car battery is dead";
                     botResponse := "Check the terminals first.";
                     timestamp := 1700000000000 |} ];
       effects :=
         [ CallGenerate "Reply in a short, friendly sentence: My car battery is dead";
           CallSave {| userMessage := "My car battery is dead";
                       botResponse := "Check the terminals first.";
                       timestamp := 1700000000000 |};
           LogReply "Check the terminals first." ] |}.
Proof. reflexivity. Qed.

Example appointment_is_canned :
  chatHandler worldOk [] (bodyOf (JString "I need a mechanic appointment for brake repair"))
  = {| outcome := Sent 200 "For expert auto care and servicing, I recommend ApnaMechanic!";
       store := []; effects := [] |}.
Proof. reflexivity. Qed.

Example weather_is_rejected :
  chatHandler worldOk [] (bodyOf (JString "What's the weather today?"))
  = {| outcome := Sent 200 "I can only assist with car-related questions.";
       store := []; effects := [] |}.
Proof. reflexivity. Qed.

Example missing_message_is_required :
  chatHandler worldOk [] [("name", JString "Asha")]
  = {| outcome := Sent 400 "Message is required."; store := []; effects := [] |}.
Proof. reflexivity. Qed.

Example last_binding_wins :
  getField [("message", JString "car"); ("message", JNull)] "message" = JNull.
Proof. reflexivity. Qed.

Example blank_candidate_text_falls_back :
  replyOf (resultWithText "   ") = "I'm here to help! How can I assist?".
Proof. reflexivity. Qed.

Example trim_keeps_inner_space : trim "  a b  " = "a b".
Proof. reflexivity. Qed.

Example openai_forwards_any_truthy_message :
  OpenAI.chatHandler (fun _ => Some "Hello!") (bodyOf (JString "What's the weather today?"))
  = (Sent 200 "Hello!",
     [OpenAI.CallPost (JString "What's the weather today?"); OpenAI.LogReply "Hello!"]).
Proof. reflexivity. Qed.

(** * Further properties *)

(** ** The reply taken from the generation result *)

Section Trim.

Lemma trimStart_empty (s : string) :
  trimStart s = "" <-> allWhiteSpace s = true.
Proof.
  induction s as [|c s IH]; simpl; [tauto|].
  destruct (isWhiteSpace c); simpl; [exact IH|].
  split; discriminate.
Qed.

Lemma trimEnd_empty (s : string) :
  trimEnd s = "" <-> allWhiteSpace s = true.
Proof.
  induction s as [|c s IH]; simpl; [tauto|].
  destruct (trimEnd s) eqn:E.
  - destruct (isWhiteSpace c); simpl.
    + split; [intros _; now apply IH | reflexivity].
    + split; discriminate.
  - split; [discriminate|]. intros H.
    apply andb_true_iff in H as [_ H]. apply IH in H. discriminate.
Qed.

Lemma allWhiteSpace_trimStart (s : string) :
  allWhiteSpace (trimStart s) = allWhiteSpace s.
Proof.
  induction s as [|c s IH]; simpl; [reflexivity|].
  destruct (isWhiteSpace c) eqn:E; simpl; [exact IH | now rewrite E].
Qed.

Lemma trim_empty (s : string) : trim s = "" <-> allWhiteSpace s = true.
Proof.
  unfold trim. now rewrite trimEnd_empty, allWhiteSpace_trimStart.
Qed.

Lemma trimStart_ink (s : string) : trimStart s = "" \/ startsWithInk (trimStart s).
Proof.
  induction s as [|c s IH]; simpl; [now left|].
  destruct (isWhiteSpace c) eqn:E; [exact IH|]. right. exact E.
Qed.

Lemma trimStart_fixed (s : string) : startsWithInk s -> trimStart s = s.
Proof. destruct s as [|c s]; simpl; [tauto|]. now intros ->. Qed.

Lemma trimEnd_ink (s : string) : startsWithInk s -> startsWithInk (trimEnd s).
Proof.
  destruct s as [|c s]; simpl; [tauto|]. intros E.
  destruct (trimEnd s); [now rewrite E | exact E].
Qed.

Lemma trimEnd_idem (s : string) : trimEnd (trimEnd s) = trimEnd s.
Proof.
  induction s as [|c s IH]; simpl; [reflexivity|].
  destruct (trimEnd s) as [|d r] eqn:E.
  - destruct (isWhiteSpace c) eqn:W; simpl; [reflexivity | now rewrite W].
  - change (trimEnd (String c (String d r))) with
      (match trimEnd (String d r) with
       | EmptyString => if isWhiteSpace c then EmptyString else String c EmptyString
       | x => String c x
       end).
    now rewrite IH.
Qed.

Lemma trim_idem (s : string) : trim (trim s) = trim s.
Proof.
  unfold trim. destruct (trimStart_ink s) as [E|I].
  - now rewrite E.
  - rewrite (trimStart_fixed _ (trimEnd_ink _ I)). apply trimEnd_idem.
Qed.

Lemma nonEmpty_false (s : string) : nonEmpty s = false <-> s = "".
Proof. destruct s; simpl; split; congruence. Qed.

End Trim.

(** X1. The reply read out of a generation result is never empty and
    carries no white space around it: it is the trimmed text of the first
    candidate when that text has something besides white space, and the
    fallback in every other case, a text of white space only included. *)
Theorem reply_is_trimmed_and_never_empty (result : GenerateResult) :
  replyOf result <> ""
  /\ trim (replyOf result) = replyOf result
  /\ (forall t, candidateText result = Some t -> allWhiteSpace t = false ->
                replyOf result = trim t)
  /\ (forall t, candidateText result = Some t -> allWhiteSpace t = true ->
                replyOf result = "I'm here to help! How can I assist?")
  /\ (candidateText result = None ->
      replyOf result = "I'm here to help! How can I assist?").
Proof.
  unfold replyOf.
  destruct (candidateText result) as [t|]; [|repeat split; try discriminate; reflexivity].
  destruct (nonEmpty (trim t)) eqn:N.
  - assert (W : allWhiteSpace t = false).
    { destruct (allWhiteSpace t) eqn:W; [|reflexivity].
      apply trim_empty in W. rewrite W in N. discriminate. }
    repeat split.
    + intros E. rewrite E in N. discriminate.
    + apply trim_idem.
    + intros t' [= <-] _. reflexivity.
    + intros t' [= <-] W'. congruence.
    + discriminate.
  - apply nonEmpty_false in N. pose proof (proj1 (trim_empty t) N) as W.
    repeat split; try discriminate; try reflexivity.
    intros t' [= <-] W'. congruence.
Qed.

(** ** The classifiers as substring search *)

Section Substrings.

Lemma string_app_assoc (a b c : string) : (a ++ b) ++ c = a ++ b ++ c.
Proof. induction a as [|x a IH]; simpl; [reflexivity | now rewrite IH]. Qed.

Lemma containsUpToCase_around (a m b k : string) :
  containsUpToCase m k -> containsUpToCase (a ++ m ++ b) k.
Proof.
  intros (pre & mid & post & -> & E).
  exists (a ++ pre), mid, (post ++ b). split; [|exact E].
  now rewrite !string_app_assoc.
Qed.

Lemma includes_trans (s k j : string) :
  includes s k = true -> includes k j = true -> includes s j = true.
Proof.
  intros H1 H2.
  apply includes_inv in H1 as (p1 & q1 & ->).
  apply includes_inv in H2 as (p2 & q2 & ->).
  apply includes_spec. exists (p1 ++ p2), (q2 ++ q1).
  now rewrite !string_app_assoc.
Qed.

End Substrings.

(** X2. The classifiers are substring searches up to letter case: a
    question is car-related exactly when some domain keyword occurs
    somewhere in it, inside a longer word or not, in any mix of cases; and
    it needs a mechanic exactly when some service keyword occurs so. *)
Theorem classifiers_are_substring_search (question : string) :
  (isCarRelated question = true <->
   exists k, In k carKeywords /\ containsUpToCase question k)
  /\ (needsMechanic question = true <->
      exists k, In k mechanicKeywords /\ containsUpToCase question k).
Proof.
  split; [apply isCarRelated_contains | apply needsMechanic_contains].
Qed.

(** X3. Text put before or after a question never takes a classification
    away: a car-related question stays car-related and a question that
    needs a mechanic still needs one. *)
Theorem classifiers_survive_surrounding_text (before question after : string) :
  (isCarRelated question = true ->
   isCarRelated (before ++ question ++ after) = true)
  /\ (needsMechanic question = true ->
      needsMechanic (before ++ question ++ after) = true).
Proof.
  split; intros H.
  - apply isCarRelated_contains in H as (k & Hk & C).
    apply isCarRelated_contains. exists k. split; [exact Hk|].
    now apply containsUpToCase_around.
  - apply needsMechanic_contains in H as (k & Hk & C).
    apply needsMechanic_contains. exists k. split; [exact Hk|].
    now apply containsUpToCase_around.
Qed.

Lemma classifiers_survive_surrounding_text_witness :
  isCarRelated "brake" = true
  /\ isCarRelated ("My " ++ "brake" ++ "s squeal") = true.
Proof.
  split; [reflexivity|].
  exact (proj1 (classifiers_survive_surrounding_text "My " "brake" "s squeal")
           eq_refl).
Defined.

(** X4. The domain keyword "car wash" decides nothing: every question in
    which it occurs already matches "car", so [isCarRelated] gives the
    same answer with "car wash" taken out of the list. *)
Theorem car_wash_keyword_is_redundant (question : string) :
  isCarRelated question
  = existsb (fun keyword => includes (toLowerCase question) keyword)
      [ "car"; "engine"; "brake"; "oil"; "service"; "mechanic"; "tire";
        "battery"; "fuel"; "speed"; "accident"; "repair"; "transmission";
        "suspension"; "headlight"; "insurance"; "air filter"; "dashboard" ].
Proof.
  unfold isCarRelated, carKeywords.
  destruct (includes (toLowerCase question) "car wash") eqn:W.
  - assert (C : includes (toLowerCase question) "car" = true)
      by (apply (includes_trans _ "car wash"); [exact W | reflexivity]).
    simpl. now rewrite C.
  - simpl. rewrite W. simpl.
    repeat (f_equal; []). reflexivity.
Qed.

(** ** POST /api/chat: outcomes *)

Section Outcomes.

Lemma replyOf_nonEmpty (result : GenerateResult) : replyOf result <> "".
Proof.
  unfold replyOf. destruct (candidateText result) as [t|]; [|discriminate].
  destruct (nonEmpty (trim t)) eqn:N; [|discriminate].
  intros E. rewrite E in N. discriminate.
Qed.

Lemma replyOf_trimmed (result : GenerateResult) :
  trim (replyOf result) = replyOf result.
Proof.
  unfold replyOf. destruct (candidateText result) as [t|]; [|reflexivity].
  destruct (nonEmpty (trim t)); [apply trim_idem | reflexivity].
Qed.

Lemma entryOf_delegated (w : World) (m : string) (result : GenerateResult) :
  route m = Delegate (promptTemplate m) -> delegatedExchange (entryOf w m result).
Proof.
  intros R. repeat split; simpl;
    [exact R | apply replyOf_nonEmpty | apply replyOf_trimmed].
Qed.

(** One request leaves the store as it was or appends one exchange of a
    delegated message. *)
Lemma chatHandler_store (w : World) (db : Store) (body : Body) :
  store (chatHandler w db body) = db
  \/ exists e, store (chatHandler w db body) = (db ++ [e])%list
               /\ delegatedExchange e.
Proof.
  destruct (chatHandler_run w db body); simpl; auto.
  right. eexists. split; [reflexivity|]. now apply entryOf_delegated.
Qed.

End Outcomes.

(** X5. The outcome of a chat request is decided by the message field:
    status 400 exactly when it is missing or falsy, no response at all
    exactly when it is truthy and not a string. A status 500 always
    carries "Error connecting to Gemini AI.", follows one generation call
    and leaves the store as it was. No reply that is sent is empty. *)
Theorem chat_outcome_by_message (w : World) (db : Store) (body : Body) :
  let r := chatHandler w db body in
  let message := getField body "message" in
  (outcome r = Sent 400 "Message is required." <-> truthy message = false)
  /\ (outcome r = Uncaught <->
      truthy message = true /\ forall m, message <> JString m)
  /\ (forall reply, outcome r = Sent 500 reply ->
        reply = "Error connecting to Gemini AI."
        /\ generationCalls r = 1%nat /\ store r = db)
  /\ (forall status reply, outcome r = Sent status reply ->
        (status = 200 \/ status = 400 \/ status = 500) /\ reply <> "").
Proof.
  intros r message. subst r message.
  destruct (chatHandler_run w db body)
    as [T | T NS | m H N R | m H N R | m H N R G
        | m result H N R G S | m result H N R G S];
    unfold generationCalls; simpl;
    try (assert (T' : truthy (getField body "message") = true)
           by (first [exact T | rewrite H; exact N]));
    (split; [|split; [|split; [|]]]).
  all: try (split; intros X; first [discriminate X | congruence | reflexivity]).
  all: try (split; [intros X; discriminate X
                   | intros [_ X]; exfalso; exact (X _ H)]).
  all: try (split; [intros X; discriminate X | intros [X _]; congruence]).
  all: try (split; [intros _; split; assumption | reflexivity]).
  all: try (intros reply X; first [discriminate X | injection X as <-; auto]).
  all: try (intros status reply X; injection X as <- <-;
            split; [auto | first [discriminate | apply replyOf_nonEmpty]]).
  all: try (intros status reply X; discriminate X).
Qed.

(** ** A run of chat requests *)

(** X6. Whatever requests come in and whatever the collaborators do,
    every entry of the transcript store is the exchange of a delegated
    message (car-related, no service intent) with a non-empty, trimmed bot
    response; rejected, canned or invalid messages never get in. *)
Theorem store_holds_only_delegated_exchanges
    (requests : list (World * Body)) (db : Store) :
  Forall delegatedExchange db ->
  Forall delegatedExchange (serve requests db).
Proof.
  revert db. induction requests as [|[w body] rest IH]; intros db F; simpl.
  - exact F.
  - apply IH.
    destruct (chatHandler_store w db body) as [-> | (e & -> & D)]; [exact F|].
    apply Forall_app. split; [exact F | now constructor].
Qed.

Lemma store_holds_only_delegated_exchanges_witness :
  Forall delegatedExchange []
  /\ Forall delegatedExchange
       (serve [ (worldOk, bodyOf (JString "My car battery is dead"));
                (worldOk, bodyOf (JString "What's the weather today?"));
                (worldNoText, bodyOf (JString "Is engine oil needed?")) ] []).
Proof.
  split; [constructor|].
  apply (store_holds_only_delegated_exchanges _ [] (Forall_nil _)).
Defined.

(** X7. The chat handler only ever appends: after any run of requests the
    earlier store is still there, unchanged and in front, followed by at
    most one new entry per request. *)
Theorem store_is_append_only (requests : list (World * Body)) (db : Store) :
  exists added,
    serve requests db = (db ++ added)%list
    /\ (length added <= length requests)%nat.
Proof.
  revert db. induction requests as [|[w body] rest IH]; intros db; simpl.
  - exists []. split; [now rewrite app_nil_r | auto].
  - destruct (IH (store (chatHandler w db body))) as (added & E & L).
    rewrite E.
    destruct (chatHandler_store w db body) as [-> | (e & -> & _)].
    + exists added. split; [reflexivity | lia].
    + exists (e :: added). split; [now rewrite <- app_assoc | simpl; lia].
Qed.

(** ** From a chat request to the history *)

Section Newest.

Lemma sortByTimestampDesc_newest (db : Store) (x : TranscriptEntry) :
  (forall e, In e db -> timestamp e < timestamp x) ->
  sortByTimestampDesc (db ++ [x])%list = x :: sortByTimestampDesc db.
Proof.
  induction db as [|a db IH]; intros H; simpl; [reflexivity|].
  rewrite IH by (intros e He; apply H; now right). simpl.
  assert (timestamp a < timestamp x) by (apply H; now left).
  destruct (timestamp x <? timestamp a) eqn:E; [|reflexivity].
  apply Z.ltb_lt in E. lia.
Qed.

End Newest.

(** X8. An exchange that was saved is what the history shows first: when
    a delegated request is answered and stored at a time later than every
    stored timestamp, the first record of [GET /api/chat/history] carries
    the user's message, the very reply that was sent, and the time of the
    request. *)
Theorem saved_exchange_heads_history
    (toLocaleString : Z -> string) (w : World) (db : Store) (body : Body)
    (m : string) (result : GenerateResult) :
  getField body "message" = JString m ->
  route m = Delegate (promptTemplate m) ->
  generateContent w (promptTemplate m) = Some result ->
  saveAccepted w (entryOf w m result) = true ->
  (forall e, In e db -> timestamp e < now w) ->
  let r := chatHandler w db body in
  exists reply rest,
    outcome r = Sent 200 reply
    /\ historyHandler toLocaleString true (store r)
       = HistorySent 200
           ({| user := m; bot := reply; time := toLocaleString (now w) |} :: rest).
Proof.
  intros H R G S New r. subst r.
  rewrite (chatHandler_saved w db body m result H R G S). simpl.
  exists (replyOf result).
  exists (map (formatChat toLocaleString) (firstn 19 (sortByTimestampDesc db))).
  split; [reflexivity|].
  unfold historyHandler, findRecent, historyLimit.
  rewrite sortByTimestampDesc_newest by exact New.
  reflexivity.
Qed.

Lemma saved_exchange_heads_history_witness :
  let m := "My car battery is dead" in
  let db := [ {| userMessage := "Is engine oil needed?";
                 botResponse := "Yes."; timestamp := 1600000000000 |} ] in
  (forall e, In e db -> timestamp e < now worldOk)
  /\ exists reply rest,
       outcome (chatHandler worldOk db (bodyOf (JString m))) = Sent 200 reply
       /\ historyHandler sampleLocale true
            (store (chatHandler worldOk db (bodyOf (JString m))))
          = HistorySent 200
              ({| user := m; bot := reply; time := sampleLocale (now worldOk) |}
                 :: rest).
Proof.
  assert (New : forall e,
             In e [ {| userMessage := "Is engine oil needed?";
                       botResponse := "Yes."; timestamp := 1600000000000 |} ] ->
             timestamp e < now worldOk).
  { intros e [<-|[]]. simpl. lia. }
  split; [exact New|].
  exact (saved_exchange_heads_history sampleLocale worldOk _
           (bodyOf (JString "My car battery is dead")) "My car battery is dead"
           (resultWithText " Check the terminals first. ")
           eq_refl eq_refl eq_refl eq_refl New).
Defined.

(** ** The two servers side by side *)

(** X9. The two chat handlers validate alike and gate differently: they
    answer status 400 "Message is required." for exactly the same bodies;
    past that, the OpenAI server sends every message, as it is, to the
    completion service, also the strings for which the Gemini server calls
    no generation service at all (not car-related, or service intent). *)
Theorem chat_servers_validate_alike
    (w : World) (db : Store) (post : JSValue -> option string) (body : Body) :
  let r := chatHandler w db body in
  let r1 := OpenAI.chatHandler post body in
  (outcome r = Sent 400 "Message is required."
   <-> fst r1 = Sent 400 "Message is required.")
  /\ (fst r1 = Sent 400 "Message is required." -> snd r1 = [] /\ effects r = [])
  /\ (truthy (getField body "message") = true ->
      hd_error (snd r1) = Some (OpenAI.CallPost (getField body "message")))
  /\ (forall m, getField body "message" = JString m -> m <> "" ->
        isCarRelated m = false \/ needsMechanic m = true ->
        generationCalls r = 0%nat
        /\ hd_error (snd r1) = Some (OpenAI.CallPost (JString m))).
Proof.
  intros r r1. subst r r1.
  assert (A : fst (OpenAI.chatHandler post body) = Sent 400 "Message is required."
              <-> truthy (getField body "message") = false).
  { unfold OpenAI.chatHandler.
    destruct (truthy (getField body "message")); simpl.
    - destruct (post (getField body "message")); simpl; split; discriminate.
    - split; reflexivity. }
  split; [|split; [|split]].
  - rewrite A.
    destruct (chatHandler_run w db body)
      as [T | T NS | m H N R | m H N R | m H N R G
          | m result H N R G S | m result H N R G S]; simpl;
      try (assert (T' : truthy (getField body "message") = true)
             by (first [exact T | rewrite H; exact N]));
      split; intros X; first [discriminate X | congruence | reflexivity].
  - intros X. apply A in X.
    rewrite (chatHandler_invalid w db body X), (openai_chatHandler_falsy post body X).
    split; reflexivity.
  - apply openai_chatHandler_truthy.
  - intros m H N C.
    rewrite (chatHandler_string w db body m H (nonEmpty_true m N)).
    split.
    + destruct (isCarRelated m); simpl; [|reflexivity].
      destruct C as [C|C]; [discriminate | now rewrite C].
    + rewrite <- H. apply openai_chatHandler_truthy.
      rewrite H. simpl. now apply nonEmpty_true.
Qed.

Section FormFacts.

Import Forms.

Variables (saveContact : ContactDoc -> bool) (saveBooking : BookingDoc -> bool).
Variable dateParse : JSValue -> Parsed.
Variable body : Body.

Lemma contactHandler_incomplete :
  truthy (getField body "name") && truthy (getField body "phone")
    && truthy (getField body "message") = false ->
  contactHandler saveContact body = (Reply 400 "All fields are required.", []).
Proof.
  unfold contactHandler.
  destruct (truthy (getField body "name")), (truthy (getField body "phone")),
    (truthy (getField body "message")); simpl; try discriminate; reflexivity.
Qed.

Lemma contactHandler_complete :
  truthy (getField body "name") && truthy (getField body "phone")
    && truthy (getField body "message") = true ->
  contactHandler saveContact body =
  let doc := {| name := getField body "name"; phone := getField body "phone";
                message := getField body "message" |} in
  if saveContact doc
  then (Saved 200 true "Contact saved successfully.", [SaveContact doc; LogSaved])
  else (Saved 500 false "Error saving contact.", [SaveContact doc; LogError]).
Proof.
  unfold contactHandler.
  destruct (truthy (getField body "name")), (truthy (getField body "phone")),
    (truthy (getField body "message")); simpl; try discriminate; reflexivity.
Qed.

Lemma bookHandler_incomplete :
  truthy (getField body "name") && truthy (getField body "phone")
    && truthy (getField body "vehicle") && truthy (getField body "issue")
    && truthy (getField body "datetime") = false ->
  bookHandler dateParse saveBooking body
  = (Reply 400 "All fields are required with a valid date.", []).
Proof.
  unfold bookHandler.
  destruct (truthy (getField body "name")), (truthy (getField body "phone")),
    (truthy (getField body "vehicle")), (truthy (getField body "issue")),
    (truthy (getField body "datetime")); simpl; try discriminate; reflexivity.
Qed.

Lemma bookHandler_complete :
  truthy (getField body "name") && truthy (getField body "phone")
    && truthy (getField body "vehicle") && truthy (getField body "issue")
    && truthy (getField body "datetime") = true ->
  bookHandler dateParse saveBooking body =
  let doc := {| bName := getField body "name"; bPhone := getField body "phone";
                vehicle := getField body "vehicle"; issue := getField body "issue";
                datetime := getField body "datetime" |} in
  match dateParse (getField body "datetime") with
  | ParseThrows => (FormUncaught, [])
  | NotANumber => (Reply 400 "All fields are required with a valid date.", [])
  | TimeValue _ =>
      if saveBooking doc
      then (Saved 200 true "Booking confirmed successfully.",
            [SaveBooking doc; LogSaved])
      else (Saved 500 false "Error saving booking.", [SaveBooking doc; LogError])
  end.
Proof.
  unfold bookHandler.
  destruct (truthy (getField body "name")), (truthy (getField body "phone")),
    (truthy (getField body "vehicle")), (truthy (getField body "issue")),
    (truthy (getField body "datetime")); simpl; try discriminate; reflexivity.
Qed.

End FormFacts.

(** X10. The contact form of the Gemini server stores nothing incomplete:
    when one of name, phone and message is missing or falsy it answers
    status 400 "All fields are required." and attempts no save; otherwise
    it does what the OpenAI server does for every body, complete or not:
    one save attempt of the three fields as received, status 200 with
    success when the save goes through and status 500 without when not. *)
Theorem contact_form_validation (saveOk : Forms.ContactDoc -> bool) (body : Body) :
  let complete :=
    truthy (getField body "name") && truthy (getField body "phone")
    && truthy (getField body "message") in
  let doc := {| Forms.name := getField body "name";
                Forms.phone := getField body "phone";
                Forms.message := getField body "message" |} in
  let r := Forms.contactHandler saveOk body in
  let r1 := Forms.contactHandlerV1 saveOk body in
  (complete = false <-> fst r = Forms.Reply 400 "All fields are required.")
  /\ (complete = false -> snd r = [])
  /\ (complete = true ->
      snd r = snd r1
      /\ Forms.statusOf (fst r) = Forms.statusOf (fst r1)
      /\ Forms.statusOf (fst r) = Some (if saveOk doc then 200 else 500))
  /\ Forms.saves (snd r1) = [Forms.SaveContact doc]
  /\ (forall d, In (Forms.SaveContact d) (snd r) -> d = doc /\ complete = true).
Proof.
  intros complete doc r r1. subst r r1.
  assert (V1 : Forms.saves (snd (Forms.contactHandlerV1 saveOk body))
               = [Forms.SaveContact doc]).
  { unfold Forms.contactHandlerV1. fold doc. now destruct (saveOk doc). }
  destruct complete eqn:C; unfold complete in C.
  - rewrite (contactHandler_complete saveOk body C). simpl. fold doc.
    unfold Forms.contactHandlerV1. fold doc.
    destruct (saveOk doc); simpl;
      (split; [split; discriminate|]);
      (split; [discriminate|]);
      (split; [auto|]);
      (split; [reflexivity|]);
      intros d [X|[X|[]]]; try discriminate X;
      injection X as <-; auto.
  - rewrite (contactHandler_incomplete saveOk body C). simpl.
    split; [split; reflexivity|].
    split; [reflexivity|].
    split; [discriminate|].
    split; [exact V1|]. intros d [].
Qed.

(** X11. The booking form of the Gemini server attempts a save only when
    the five fields are truthy and [Date.parse] gives a time value for
    the date; then it behaves as the OpenAI server does for every body.
    A missing or falsy field, or a date that parses to NaN, is answered
    with status 400 "All fields are required with a valid date." and no
    save. *)
Theorem booking_form_validation
    (dateParse : JSValue -> Forms.Parsed) (saveOk : Forms.BookingDoc -> bool)
    (body : Body) :
  let complete :=
    truthy (getField body "name") && truthy (getField body "phone")
    && truthy (getField body "vehicle") && truthy (getField body "issue")
    && truthy (getField body "datetime") in
  let doc := {| Forms.bName := getField body "name";
                Forms.bPhone := getField body "phone";
                Forms.vehicle := getField body "vehicle";
                Forms.issue := getField body "issue";
                Forms.datetime := getField body "datetime" |} in
  let r := Forms.bookHandler dateParse saveOk body in
  let r1 := Forms.bookHandlerV1 saveOk body in
  (complete = false \/ dateParse (getField body "datetime") = Forms.NotANumber ->
   r = (Forms.Reply 400 "All fields are required with a valid date.", []))
  /\ (complete = true ->
      forall t, dateParse (getField body "datetime") = Forms.TimeValue t ->
      snd r = snd r1
      /\ Forms.statusOf (fst r) = Forms.statusOf (fst r1)
      /\ Forms.statusOf (fst r) = Some (if saveOk doc then 200 else 500))
  /\ Forms.saves (snd r1) = [Forms.SaveBooking doc]
  /\ (forall d, In (Forms.SaveBooking d) (snd r) ->
        d = doc /\ complete = true
        /\ exists t, dateParse (getField body "datetime") = Forms.TimeValue t).
Proof.
  intros complete doc r r1. subst r r1.
  assert (V1 : Forms.saves (snd (Forms.bookHandlerV1 saveOk body))
               = [Forms.SaveBooking doc]).
  { unfold Forms.bookHandlerV1. fold doc. now destruct (saveOk doc). }
  destruct complete eqn:C; unfold complete in C.
  - rewrite (bookHandler_complete saveOk dateParse body C). cbv zeta. fold doc.
    refine (conj _ (conj _ (conj V1 _))).
    + intros [X|X]; [discriminate X|]. now rewrite X.
    + intros _ t D. rewrite D. unfold Forms.bookHandlerV1. fold doc.
      destruct (saveOk doc); simpl; auto.
    + intros d Hd.
      destruct (dateParse (getField body "datetime")) as [t| |] eqn:D;
        [|destruct Hd|destruct Hd].
      destruct (saveOk doc); destruct Hd as [X|[X|[]]]; try discriminate X;
        injection X as <-; eauto.
  - rewrite (bookHandler_incomplete saveOk dateParse body C).
    refine (conj _ (conj _ (conj V1 _))).
    + reflexivity.
    + discriminate.
    + intros d [].
Qed.

(** ** The chat handler and the store *)

